(** * The Digital Ocean [HttpFunctionAdapter]

    A shallow embedding of
    [src/adapters/digital-ocean/http-function.adapter.ts] and of the
    properties its specification states about it.

    Conventions of the embedding.
    - A JavaScript string is a Rocq [string]: a sequence of code units,
      here restricted to the code units below 256.
    - A value of TypeScript type [unknown] is a [JsValue].
    - A computation that may throw returns an [Outcome]; one that also
      reads or writes mutable objects is a [Run] over the store it
      touches.
    - An object that is shared by reference and mutated (the header map
      of an event) lives in a [Heap] and is named by a location. *)

From stdpp Require Import base option list strings gmap pretty.
From Stdlib.Strings Require Import Ascii String Byte.
From Stdlib Require Import ZArith NArith Lia.

Local Set Warnings "-register-all".
Open Scope string_scope.
Open Scope Z_scope.

(** ** Outcomes of a computation *)

(** The exceptions that the modelled code and builtins can raise. *)
Inductive Exn : Type :=
  | TypeError (msg : string)
  | SyntaxError (msg : string)
  | ThrownError (msg : string).

(** [Beyond] marks a run that leaves the fragment of ECMAScript covered
    by this embedding (a regular-expression source using syntax that
    [RegExp_new] does not interpret). Nothing is stated about it. *)
Inductive Outcome (A : Type) : Type :=
  | Ok (a : A)
  | Throw (e : Exn)
  | Beyond.
Arguments Ok {A} a.
Arguments Throw {A} e.
Arguments Beyond {A}.

#[export] Instance Outcome_ret : MRet Outcome := fun A a => Ok a.
#[export] Instance Outcome_bind : MBind Outcome := fun A B f m =>
  match m with
  | Ok a => f a
  | Throw e => Throw e
  | Beyond => Beyond
  end.

(** A computation over a mutable store of type [S]. When a statement
    throws, the store keeps the writes made before it. *)
Definition Run (S A : Type) : Type := S -> Outcome A * S.

#[export] Instance Run_ret {S} : MRet (Run S) := fun A a s => (Ok a, s).
#[export] Instance Run_bind {S} : MBind (Run S) := fun A B f m s =>
  match m s with
  | (Ok a, s') => f a s'
  | (Throw e, s') => (Throw e, s')
  | (Beyond, s') => (Beyond, s')
  end.

#[export] Instance Outcome_fmap : FMap Outcome := fun A B f m =>
  match m with
  | Ok a => Ok (f a)
  | Throw e => Throw e
  | Beyond => Beyond
  end.

Definition lift {S A} (o : Outcome A) : Run S A := fun s => (o, s).
Definition modify_store {S} (f : S -> S) : Run S unit := fun s => (Ok tt, f s).

(** ** JavaScript values *)

(** The values an [unknown] argument can hold: the primitives, objects
    and arrays. An object is given by its own data properties, as in a
    parsed JSON payload; an array by its elements and by the own
    properties of other names that it carries. Numbers are integers or
    NaN. *)
Inductive JsValue : Type :=
  | JsUndefined
  | JsNull
  | JsBoolean (b : bool)
  | JsNumber (n : Z)
  | JsNaN
  | JsString (s : string)
  | JsArray (items : list JsValue) (props : list (string * JsValue))
  | JsObject (props : list (string * JsValue)).

(** [ToBoolean]: the falsy values are [undefined], [null], [false],
    [0], [NaN] and the empty string. *)
Definition ToBoolean (v : JsValue) : bool :=
  match v with
  | JsUndefined | JsNull | JsNaN => false
  | JsBoolean b => b
  | JsNumber n => negb (n =? 0)
  | JsString s => negb (String.eqb s "")
  | JsArray _ _ | JsObject _ => true
  end.

Fixpoint assoc {A} (k : string) (l : list (string * A)) : option A :=
  match l with
  | [] => None
  | (k', v) :: l' => if String.eqb k k' then Some v else assoc k l'
  end.

Definition digitValue (c : ascii) : option nat :=
  let n := nat_of_ascii c in
  if ((48 <=? n) && (n <=? 57))%nat then Some (n - 48)%nat else None.

Fixpoint parseDigits (s : string) (acc : nat) : option nat :=
  match s with
  | EmptyString => Some acc
  | String c r =>
      match digitValue c with
      | Some d => parseDigits r (10 * acc + d)%nat
      | None => None
      end
  end.

(** The array index that a property name denotes: a decimal numeral
    without a leading zero. *)
Definition parseIndex (k : string) : option nat :=
  match k with
  | EmptyString => None
  | String c r =>
      if Ascii.eqb c "0"
      then match r with EmptyString => Some 0%nat | String _ _ => None end
      else parseDigits k 0
  end.

(** The property [k] of an array: its [length], the element at the
    index that [k] denotes, or the own property of that name. *)
Definition arrayProperty (items : list JsValue)
  (props : list (string * JsValue)) (k : string) : JsValue :=
  if String.eqb k "length" then JsNumber (Z.of_nat (List.length items))
  else
    match parseIndex k ≫= fun i => nth_error items i with
    | Some x => x
    | None => default JsUndefined (assoc k props)
    end.

(** Property read [v.k]. Reading a property of [undefined] or [null]
    throws a [TypeError]; a primitive has no property of the names the
    adapter reads (they would come from its prototype), so the read
    gives [undefined]; an object gives its own property or [undefined];
    an array gives its length, an element or its own property of that
    name. *)
Definition Get (v : JsValue) (k : string) : Outcome JsValue :=
  match v with
  | JsUndefined =>
      Throw (TypeError
               ("Cannot read properties of undefined (reading '" ++ k ++ "')"))
  | JsNull =>
      Throw (TypeError
               ("Cannot read properties of null (reading '" ++ k ++ "')"))
  | JsObject props => Ok (default JsUndefined (assoc k props))
  | JsArray items props => Ok (arrayProperty items props k)
  | _ => Ok JsUndefined
  end.

(** [v !== undefined]. *)
Definition isDefined (v : JsValue) : bool :=
  match v with
  | JsUndefined => false
  | _ => true
  end.

(** Short-circuit [a && b] on booleans: [b] is evaluated only when [a]
    is true. *)
Definition andThen (a : bool) (b : Outcome bool) : Outcome bool :=
  if a then b else Ok false.

(** ** [canHandle] *)

(** [[
    return (
      !!digitalOceanHttpEvent &&
      digitalOceanHttpEvent.__ow_path !== undefined &&
      digitalOceanHttpEvent.__ow_method !== undefined &&
      digitalOceanHttpEvent.__ow_headers !== undefined
    );
    ]] *)
Definition canHandle (event : JsValue) : Outcome bool :=
  let digitalOceanHttpEvent := event in
  andThen (ToBoolean digitalOceanHttpEvent)
    (p ← Get digitalOceanHttpEvent "__ow_path";
     andThen (isDefined p)
       (m ← Get digitalOceanHttpEvent "__ow_method";
        andThen (isDefined m)
          (h ← Get digitalOceanHttpEvent "__ow_headers";
           Ok (isDefined h)))).

(** ** Builtins: regular expressions *)

(** The fragment of ECMAScript pattern syntax that is interpreted: a
    disjunction [a1|a2|...] of alternatives, each a sequence of pattern
    characters, [.], and the assertions [^] and [$]. No flag is set, so
    [^] holds at the start of the input only, [$] at its end only, and
    [.] matches any code unit but a line terminator. *)
Inductive Term : Type :=
  | TChar (c : ascii)
  | TAny
  | TBol
  | TEol.

Definition Alternative : Type := list Term.

(** A disjunction is never empty: a first alternative and the others. *)
Record RegExp : Type := mkRegExp {
  firstAlternative : Alternative;
  otherAlternatives : list Alternative;
}.

(** The syntax characters whose meaning (escapes, quantifiers, groups,
    classes) is outside the fragment. *)
Definition outsideFragment (c : ascii) : bool :=
  existsb (Ascii.eqb c)
    ["\"; "*"; "+"; "?"; "("; ")"; "["; "]"; "{"; "}"]%char.

Definition termOf (c : ascii) : Term :=
  if Ascii.eqb c "." then TAny
  else if Ascii.eqb c "^" then TBol
  else if Ascii.eqb c "$" then TEol
  else TChar c.

Fixpoint parsePattern (src : string) : option RegExp :=
  match src with
  | EmptyString => Some (mkRegExp [] [])
  | String c rest =>
      if outsideFragment c then None
      else
        match parsePattern rest with
        | None => None
        | Some (mkRegExp a d) =>
            if Ascii.eqb c "|" then Some (mkRegExp [] (a :: d))
            else Some (mkRegExp (termOf c :: a) d)
        end
  end.

Fixpoint occurs (c : ascii) (s : string) : bool :=
  match s with
  | EmptyString => false
  | String c' r => Ascii.eqb c' c || occurs c r
  end.

(** A source that opens a group and has no [)] to close it, and no
    escape or class that could make the [(] a plain character, is not a
    pattern. *)
Definition unterminatedGroup (src : string) : bool :=
  occurs "(" src && negb (occurs ")" src)
  && negb (occurs "\" src) && negb (occurs "[" src).

(** [new RegExp(src)]: the pattern of a source in the fragment, a
    [SyntaxError] for an unterminated group. *)
Definition RegExp_new (src : string) : Outcome RegExp :=
  match parsePattern src with
  | Some re => Ok re
  | None =>
      if unterminatedGroup src
      then Throw (SyntaxError
                    ("Invalid regular expression: /" ++ src
                     ++ "/: Unterminated group"))
      else Beyond
  end.

Definition lineTerminator (c : ascii) : bool :=
  Ascii.eqb c "010" || Ascii.eqb c "013".

(** Matches an alternative against [rest], the input from index [pos]
    on; gives the input left after the match. *)
Fixpoint matchAlternative (a : Alternative) (pos : nat) (rest : string)
  : option string :=
  match a with
  | [] => Some rest
  | TBol :: a' =>
      if Nat.eqb pos 0 then matchAlternative a' pos rest else None
  | TEol :: a' =>
      match rest with
      | EmptyString => matchAlternative a' pos rest
      | String _ _ => None
      end
  | TAny :: a' =>
      match rest with
      | EmptyString => None
      | String c r =>
          if lineTerminator c then None
          else matchAlternative a' (S pos) r
      end
  | TChar x :: a' =>
      match rest with
      | EmptyString => None
      | String c r =>
          if Ascii.eqb c x then matchAlternative a' (S pos) r else None
      end
  end.

(** The alternatives are tried from left to right. *)
Fixpoint matchDisjunction (d : list Alternative) (pos : nat) (rest : string)
  : option string :=
  match d with
  | [] => None
  | a :: d' =>
      match matchAlternative a pos rest with
      | Some r => Some r
      | None => matchDisjunction d' pos rest
      end
  end.

Definition matchAt (re : RegExp) (pos : nat) (rest : string) : option string :=
  matchDisjunction (firstAlternative re :: otherAlternatives re) pos rest.

(** [input.replace(re, '')] for a regular expression without the global
    flag: the leftmost match is removed, an input without a match is
    returned as it is. [rest] is the input from index [pos] on. *)
Fixpoint removeFirstMatch (re : RegExp) (pos : nat) (rest : string) : string :=
  match matchAt re pos rest with
  | Some after => after
  | None =>
      match rest with
      | EmptyString => EmptyString
      | String c r => String c (removeFirstMatch re (S pos) r)
      end
  end.

Definition String_replace (input : string) (re : RegExp) : string :=
  removeFirstMatch re 0 input.

(** ** Builtins: buffers and numbers *)

Definition Buffer : Type := list byte.

Definition byteOfN (n : N) : byte := byte_of_ascii (ascii_of_N n).

(** UTF-8 encoding of one code unit below 256: one byte below 128, two
    bytes from 128 on. *)
Definition utf8Unit (c : ascii) : list byte :=
  let n := N_of_ascii c in
  if (n <? 128)%N then [byteOfN n]
  else [byteOfN (192 + n / 64); byteOfN (128 + n mod 64)].

Fixpoint utf8Encode (s : string) : Buffer :=
  match s with
  | EmptyString => []
  | String c r => (utf8Unit c ++ utf8Encode r)%list
  end.

(** The value of a character of the base64 alphabet. *)
Definition base64Value (c : ascii) : option N :=
  let n := N_of_ascii c in
  if ((65 <=? n) && (n <=? 90))%N then Some (n - 65)%N
  else if ((97 <=? n) && (n <=? 122))%N then Some (n - 71)%N
  else if ((48 <=? n) && (n <=? 57))%N then Some (n + 4)%N
  else if (n =? 43)%N then Some 62%N
  else if (n =? 47)%N then Some 63%N
  else None.

(** The 6-bit groups of a base64 text: characters outside the alphabet
    are skipped and the padding ends the text. *)
Fixpoint sextets (s : string) : list N :=
  match s with
  | EmptyString => []
  | String c r =>
      if Ascii.eqb c "=" then []
      else
        match base64Value c with
        | Some v => v :: sextets r
        | None => sextets r
        end
  end.

Fixpoint bytesOfSextets (l : list N) : Buffer :=
  match l with
  | a :: l1 =>
      match l1 with
      | b :: l2 =>
          let b0 := byteOfN (a * 4 + b / 16) in
          match l2 with
          | c :: l3 =>
              let b1 := byteOfN ((b mod 16) * 16 + c / 4) in
              match l3 with
              | d :: l4 =>
                  b0 :: b1 :: byteOfN ((c mod 4) * 64 + d) :: bytesOfSextets l4
              | [] => [b0; b1]
              end
          | [] => [b0]
          end
      | [] => []
      end
  | [] => []
  end.

Definition base64Decode (s : string) : Buffer := bytesOfSextets (sextets s).

(** [String(n)] for a number that is a natural number. *)
Definition String_ofNat (n : nat) : string := pretty n.

(** ** Data model *)

(** A value of type [string | string[]]. *)
Inductive StringOrArray : Type :=
  | One (s : string)
  | Many (l : list string).

(** Header maps: the platform's are single-valued, the canonical
    response's may hold several values per name. *)
Abbreviation Headers := (gmap string string).
Abbreviation BothValueHeaders := (gmap string StringOrArray).

(** Query parameters keep the order in which they were given. *)
Definition QueryParams : Type := list (string * StringOrArray).

(** Header maps are objects: an event and the request made from it can
    hold the same one. The heap maps each location to the current
    content of the object stored there. *)
Definition loc : Type := nat.
Abbreviation Heap := (gmap loc (gmap string string)).

(** [DigitalOceanHttpEvent]; an optional field that is absent is [None]. *)
Record DigitalOceanHttpEvent : Type := {
  __ow_method : string;
  __ow_path : string;
  __ow_headers : loc;
  __ow_query : option QueryParams;
  __ow_body : option string;
  __ow_isBase64Encoded : option bool;
}.

(** [AdapterRequest]: the canonical request. *)
Record AdapterRequest : Type := {
  method : string;
  headers : loc;
  body : option Buffer;
  remoteAddress : option string;
  path : string;
}.

(** A response body: absent, text or bytes. *)
Inductive Body : Type :=
  | BodyUndefined
  | BodyString (s : string)
  | BodyBuffer (b : Buffer).

(** The logger is handed through and never used by the adapter. *)
Definition ILogger : Type := unit.

(** [GetResponseAdapterProps<DigitalOceanHttpEvent>]: the canonical
    response together with the event and the logger. *)
Record GetResponseAdapterProps : Type := {
  props_event : DigitalOceanHttpEvent;
  props_statusCode : Z;
  props_body : Body;
  props_headers : gmap string StringOrArray;
  props_isBase64Encoded : bool;
  props_log : ILogger;
}.

(** [DigitalOceanHttpResponse]: the platform response. *)
Record DigitalOceanHttpResponse : Type := {
  statusCode : Z;
  responseBody : Body;
  responseHeaders : gmap string string;
}.

(** The builtin [Error]: [stack] is optional. *)
Record Error : Type := {
  name : string;
  message : string;
  stack : option string;
}.

(** The delegated resolver of one exchange, seen as the list of the
    responses it has been completed with, oldest first. *)
Definition DelegatedResolver : Type := list DigitalOceanHttpResponse.

(** [delegatedResolver.succeed(response)]. *)
Definition succeed (response : DigitalOceanHttpResponse)
  : Run DelegatedResolver unit :=
  modify_store (fun calls => (calls ++ [response])%list).

(** [OnErrorProps<DigitalOceanHttpEvent, DigitalOceanHttpResponse>]; its
    [delegatedResolver] is the store of the computation. *)
Record OnErrorProps : Type := {
  error : Error;
  respondWithErrors : bool;
  onError_event : DigitalOceanHttpEvent;
  onError_log : ILogger;
}.

(** [HttpFunctionAdapterOptions]. *)
Record HttpFunctionAdapterOptions : Type := {
  stripBasePath : option string;
}.

(** ** The utilities of [core] *)

(** Modelled from the spec: [getDefaultIfUndefined] of [core], whose
    source is not part of the adapter file. It returns the fallback only
    when the value is [undefined]. *)
Definition getDefaultIfUndefined {A} (value : option A) (fallback : A) : A :=
  match value with
  | Some v => v
  | None => fallback
  end.

(** Modelled from the spec: [getEventBodyAsBuffer] of [core], whose
    source is not part of the adapter file. A base64-flagged body is
    decoded to raw bytes, any other body is the UTF-8 encoding of its
    text; the result is the bytes and their number. *)
Definition getEventBodyAsBuffer (rawBody : string) (isBase64Encoded : bool)
  : Buffer * nat :=
  let bytes := if isBase64Encoded then base64Decode rawBody
               else utf8Encode rawBody in
  (bytes, List.length bytes).

(** [values.join(',')]. *)
Definition joinWithComma (values : list string) : string :=
  String.concat "," values.

Definition flattenValue (v : StringOrArray) : string :=
  match v with
  | One s => s
  | Many l => joinWithComma l
  end.

(** Modelled from the spec: [getFlattenedHeadersMap] of [core], whose
    source is not part of the adapter file. Every value becomes a single
    string: several values are joined with a comma in their order, a
    single value passes through; the names are kept as given. *)
Definition getFlattenedHeadersMap (headersMap : gmap string StringOrArray)
  : gmap string string :=
  flattenValue <$> headersMap.

Definition unreserved (c : ascii) : bool :=
  let n := N_of_ascii c in
  (((65 <=? n) && (n <=? 90)) || ((97 <=? n) && (n <=? 122))
   || ((48 <=? n) && (n <=? 57))
   || existsb (Ascii.eqb c) ["-"; "_"; "."; "~"]%char)%N.

Definition hexDigit (n : N) : ascii :=
  if (n <? 10)%N then ascii_of_N (48 + n) else ascii_of_N (55 + n).

Definition percentByte (b : byte) : string :=
  let n := Byte.to_N b in
  String "%" (String (hexDigit (n / 16)) (String (hexDigit (n mod 16)) "")).

(** Percent-encoding of a query key or value: unreserved characters are
    kept, every other one becomes the escapes of its UTF-8 bytes. *)
Fixpoint percentEncode (s : string) : string :=
  match s with
  | EmptyString => EmptyString
  | String c r =>
      (if unreserved c then String c ""
       else String.concat "" (map percentByte (utf8Unit c)))
      ++ percentEncode r
  end.

Definition queryPairs (queryParams : QueryParams) : list string :=
  flat_map
    (fun '(k, v) =>
       match v with
       | One s => [percentEncode k ++ "=" ++ percentEncode s]
       | Many l => map (fun s => percentEncode k ++ "=" ++ percentEncode s) l
       end)
    queryParams.

(** Modelled from the spec: [getPathWithQueryStringParams] of [core],
    whose source is not part of the adapter file. The path is followed
    by [?] and the encoded [key=value] pairs, a parameter with several
    values giving one pair per value in their order; without a pair the
    result is the bare path. *)
Definition getPathWithQueryStringParams (path : string)
  (queryParams : QueryParams) : string :=
  match queryPairs queryParams with
  | [] => path
  | pairs => path ++ "?" ++ String.concat "&" pairs
  end.

(** ** Objects on the heap *)

(** The content of the object at a location; a location that the heap
    does not list holds an object without properties. *)
Definition objectAt (h : Heap) (l : loc) : gmap string string := h !!! l.

(** [obj[k]]. *)
Definition getProperty (l : loc) (k : string) : Run Heap (option string) :=
  fun h => (Ok (objectAt h l !! k), h).

(** [obj[k] = v]. *)
Definition setProperty (l : loc) (k v : string) : Run Heap unit :=
  modify_store (fun h => <[l := <[k := v]> (objectAt h l)]> h).

(** ** The class [HttpFunctionAdapter] *)

(** An instance: its options and the methods that the class calls on
    [this], [getPathFromEvent] and [getResponse]. They are late bound, a
    subclass may replace them, and a replacement may throw. *)
Record HttpFunctionAdapter : Type := {
  options : option HttpFunctionAdapterOptions;
  this_getPathFromEvent : DigitalOceanHttpEvent -> Outcome string;
  this_getResponse : GetResponseAdapterProps -> Outcome DigitalOceanHttpResponse;
}.

Definition getAdapterName : string := "HttpFunctionAdapter".

(** [[
    const stripBasePath = getDefaultIfUndefined(this.options?.stripBasePath, '');
    const replaceRegex = new RegExp(`^${stripBasePath}`);
    const path = event.__ow_path.replace(replaceRegex, '');
    const queryParams = event.__ow_query;
    return getPathWithQueryStringParams(path, queryParams || {});
    ]] *)
Definition getPathFromEvent (options : option HttpFunctionAdapterOptions)
  (event : DigitalOceanHttpEvent) : Outcome string :=
  let stripBasePath :=
    getDefaultIfUndefined (options ≫= stripBasePath) "" in
  replaceRegex ← RegExp_new ("^" ++ stripBasePath);
  let path := String_replace (__ow_path event) replaceRegex in
  let queryParams := __ow_query event in
  Ok (getPathWithQueryStringParams path (default [] queryParams)).

(** [[
    const headers = getFlattenedHeadersMap(responseHeaders);
    return { statusCode, body, headers };
    ]] *)
Definition getResponse (props : GetResponseAdapterProps)
  : DigitalOceanHttpResponse :=
  let headers := getFlattenedHeadersMap (props_headers props) in
  {| statusCode := props_statusCode props;
     responseBody := props_body props;
     responseHeaders := headers |}.

(** [new HttpFunctionAdapter(options)]. *)
Definition new_HttpFunctionAdapter (options : option HttpFunctionAdapterOptions)
  : HttpFunctionAdapter :=
  {| options := options;
     this_getPathFromEvent := getPathFromEvent options;
     this_getResponse := fun props => Ok (getResponse props) |}.

(** The truthiness of an optional string: it is there and not empty. *)
Definition truthyString (o : option string) : bool :=
  match o with
  | Some s => negb (String.eqb s "")
  | None => false
  end.

(** [[
    const headers = event.__ow_headers;
    const method = event.__ow_method;
    const path = this.getPathFromEvent(event);
    let body: Buffer | undefined;
    if (event.__ow_body) {
      const [bufferBody, contentLength] =
        getEventBodyAsBuffer(event.__ow_body, !!event.__ow_isBase64Encoded);
      body = bufferBody;
      headers['content-length'] = String(contentLength);
    }
    const remoteAddress = headers['x-forwarded-for'];
    return { method, headers, body, remoteAddress, path };
    ]]
    [headers] is the event's own header object, not a copy. *)
Definition getRequest (this : HttpFunctionAdapter)
  (event : DigitalOceanHttpEvent) : Run Heap AdapterRequest :=
  let headers := __ow_headers event in
  let method := __ow_method event in
  path ← lift (this_getPathFromEvent this event);
  body ←
    (if truthyString (__ow_body event) then
       let '(bufferBody, contentLength) :=
         getEventBodyAsBuffer (default "" (__ow_body event))
           (default false (__ow_isBase64Encoded event)) in
       _ ← setProperty headers "content-length" (String_ofNat contentLength);
       mret (Some bufferBody)
     else mret None);
  remoteAddress ← getProperty headers "x-forwarded-for";
  mret {| method := method;
          headers := headers;
          body := body;
          remoteAddress := remoteAddress;
          path := path |}.

(** [body || ''] for [body : string | undefined]. *)
Definition orEmpty (body : option string) : string :=
  if truthyString body then default "" body else "".

(** [[
    const body = respondWithErrors ? error.stack : '';
    const errorResponse = this.getResponse({
      event, statusCode: 500, body: body || '', headers: {},
      isBase64Encoded: false, log,
    });
    delegatedResolver.succeed(errorResponse);
    ]] *)
Definition onErrorWhileForwarding (this : HttpFunctionAdapter)
  (props : OnErrorProps) : Run DelegatedResolver unit :=
  let body := if respondWithErrors props then stack (error props)
              else Some "" in
  errorResponse ←
    lift (this_getResponse this
            {| props_event := onError_event props;
               props_statusCode := 500;
               props_body := BodyString (orEmpty body);
               props_headers := ∅;
               props_isBase64Encoded := false;
               props_log := onError_log props |});
  succeed errorResponse.

(** ** Events as values *)

Definition valueOfStringOrArray (v : StringOrArray) : JsValue :=
  match v with
  | One s => JsString s
  | Many l => JsArray (map JsString l) []
  end.

Definition optionalProperty (k : string) (v : option JsValue)
  : list (string * JsValue) :=
  match v with
  | Some x => [(k, x)]
  | None => []
  end.

(** The value of an optional boolean: the boolean or [undefined]. *)
Definition valueOfOptionalBool (o : option bool) : JsValue :=
  match o with
  | Some b => JsBoolean b
  | None => JsUndefined
  end.

(** The value of an optional string: the string or [undefined]. *)
Definition valueOfOptionalString (o : option string) : JsValue :=
  match o with
  | Some s => JsString s
  | None => JsUndefined
  end.

(** The value that a typed event is at run time, its header object read
    from the heap. *)
Definition valueOfEvent (h : Heap) (event : DigitalOceanHttpEvent) : JsValue :=
  JsObject
    ([("__ow_method", JsString (__ow_method event));
      ("__ow_path", JsString (__ow_path event));
      ("__ow_headers",
       JsObject (map (fun '(k, v) => (k, JsString v))
                   (map_to_list (objectAt h (__ow_headers event)))))]
     ++ optionalProperty "__ow_query"
          ((fun q => JsObject (map (fun '(k, v) => (k, valueOfStringOrArray v)) q))
             <$> __ow_query event)
     ++ optionalProperty "__ow_body" (JsString <$> __ow_body event)
     ++ optionalProperty "__ow_isBase64Encoded"
          (JsBoolean <$> __ow_isBase64Encoded event))%list.

(** ** The regular-expression engine as a parameter *)

(** What the adapter uses of regular expressions: [new RegExp(src)],
    which gives a pattern or throws, and [input.replace(re, '')], which
    returns a string for every input and pattern. *)
Record RegExpEngine : Type := {
  Pattern : Type;
  construct : string -> Outcome Pattern;
  replaceFirst : string -> Pattern -> string;
}.

(** The engine of the interpreted fragment. *)
Definition interpretedEngine : RegExpEngine :=
  {| Pattern := RegExp;
     construct := RegExp_new;
     replaceFirst := String_replace |}.

(** [getPathFromEvent], the engine left open. *)
Definition getPathFromEventWith (E : RegExpEngine)
  (options : option HttpFunctionAdapterOptions)
  (event : DigitalOceanHttpEvent) : Outcome string :=
  let stripBasePath :=
    getDefaultIfUndefined (options ≫= stripBasePath) "" in
  replaceRegex ← construct E ("^" ++ stripBasePath);
  let path := replaceFirst E (__ow_path event) replaceRegex in
  let queryParams := __ow_query event in
  Ok (getPathWithQueryStringParams path (default [] queryParams)).

(** [new HttpFunctionAdapter(options)] over an engine. *)
Definition new_HttpFunctionAdapterWith (E : RegExpEngine)
  (options : option HttpFunctionAdapterOptions) : HttpFunctionAdapter :=
  {| options := options;
     this_getPathFromEvent := getPathFromEventWith E options;
     this_getResponse := fun props => Ok (getResponse props) |}.

(** ** The methods run on a value *)

(** The declared types are erased at run time: [getRequest] runs on
    whatever value [canHandle] has accepted. The definitions below
    follow the same statements on a [JsValue]. Objects are values here,
    so the header object is returned with the request rather than
    shared. Where an utility of [core] would receive an argument outside
    its declared type the run is [Beyond]. *)

(** [v.replace(re, '')]: only a string has a [replace] method. *)
Definition replaceOn (v : JsValue) (re : RegExp) : Outcome string :=
  match v with
  | JsString s => Ok (String_replace s re)
  | JsUndefined =>
      Throw (TypeError
               "Cannot read properties of undefined (reading 'replace')")
  | JsNull =>
      Throw (TypeError "Cannot read properties of null (reading 'replace')")
  | _ => Throw (TypeError "event.__ow_path.replace is not a function")
  end.

Fixpoint stringItems (items : list JsValue) : option (list string) :=
  match items with
  | [] => Some []
  | JsString s :: r =>
      match stringItems r with
      | Some l => Some (s :: l)
      | None => None
      end
  | _ :: _ => None
  end.

Definition queryEntry (x : JsValue) : option StringOrArray :=
  match x with
  | JsString s => Some (One s)
  | JsArray items [] =>
      match stringItems items with
      | Some l => Some (Many l)
      | None => None
      end
  | _ => None
  end.

Fixpoint queryEntries (props : list (string * JsValue)) : option QueryParams :=
  match props with
  | [] => Some []
  | (k, x) :: r =>
      match queryEntry x, queryEntries r with
      | Some v, Some q => Some ((k, v) :: q)
      | _, _ => None
      end
  end.

(** [queryParams || {}] as the query map that the utility expects. *)
Definition queryOfValue (v : JsValue) : Outcome QueryParams :=
  if ToBoolean v then
    match v with
    | JsObject props =>
        match queryEntries props with
        | Some q => Ok q
        | None => Beyond
        end
    | _ => Beyond
    end
  else Ok [].

Fixpoint assocSet {A} (k : string) (x : A) (l : list (string * A))
  : list (string * A) :=
  match l with
  | [] => [(k, x)]
  | (k', y) :: l' =>
      if String.eqb k k' then (k, x) :: l' else (k', y) :: assocSet k x l'
  end.

(** [v[k] = x] for a name [k] that is no index: the object or array
    with the property set. Setting a property of [undefined] or [null]
    throws a [TypeError]; on a primitive the outcome depends on the
    mode the code runs in and is left open. *)
Definition SetProperty (v : JsValue) (k : string) (x : JsValue)
  : Outcome JsValue :=
  match v with
  | JsUndefined =>
      Throw (TypeError
               ("Cannot set properties of undefined (setting '" ++ k ++ "')"))
  | JsNull =>
      Throw (TypeError
               ("Cannot set properties of null (setting '" ++ k ++ "')"))
  | JsObject props => Ok (JsObject (assocSet k x props))
  | JsArray items props => Ok (JsArray items (assocSet k x props))
  | _ => Beyond
  end.

(** [getPathFromEvent] on a value. *)
Definition getPathFromValue (options : option HttpFunctionAdapterOptions)
  (event : JsValue) : Outcome string :=
  let stripBasePath :=
    getDefaultIfUndefined (options ≫= stripBasePath) "" in
  replaceRegex ← RegExp_new ("^" ++ stripBasePath);
  owPath ← Get event "__ow_path";
  path ← replaceOn owPath replaceRegex;
  queryParams ← Get event "__ow_query";
  query ← queryOfValue queryParams;
  Ok (getPathWithQueryStringParams path query).

(** The request made from a value. *)
Record RequestValue : Type := {
  value_method : JsValue;
  value_headers : JsValue;
  value_body : option Buffer;
  value_remoteAddress : JsValue;
  value_path : string;
}.

(** [getRequest] of the class on a value. *)
Definition getRequestOfValue (options : option HttpFunctionAdapterOptions)
  (event : JsValue) : Outcome RequestValue :=
  headers ← Get event "__ow_headers";
  method ← Get event "__ow_method";
  path ← getPathFromValue options event;
  owBody ← Get event "__ow_body";
  written ←
    (if ToBoolean owBody then
       match owBody with
       | JsString rawBody =>
           isBase64Encoded ← Get event "__ow_isBase64Encoded";
           let '(bufferBody, contentLength) :=
             getEventBodyAsBuffer rawBody (ToBoolean isBase64Encoded) in
           headers' ← SetProperty headers "content-length"
                        (JsString (String_ofNat contentLength));
           Ok (Some bufferBody, headers')
       | _ => Beyond
       end
     else Ok (None, headers));
  remoteAddress ← Get written.2 "x-forwarded-for";
  Ok {| value_method := method;
        value_headers := written.2;
        value_body := written.1;
        value_remoteAddress := remoteAddress;
        value_path := path |}.

(** ** Properties: the statements' own vocabulary *)

(** The field [k] of a value, [undefined] when the value has none. *)
Definition field (v : JsValue) (k : string) : JsValue :=
  match v with
  | JsObject props => default JsUndefined (assoc k props)
  | JsArray items props => arrayProperty items props k
  | _ => JsUndefined
  end.

(** A character that stands for itself in a pattern. *)
Definition literalChar (c : ascii) : bool :=
  negb (outsideFragment c
        || Ascii.eqb c "|" || Ascii.eqb c "." || Ascii.eqb c "^"
        || Ascii.eqb c "$").

(** A base path without any character that has a meaning in a pattern. *)
Fixpoint literal (s : string) : bool :=
  match s with
  | EmptyString => true
  | String c r => literalChar c && literal r
  end.

(** The alternative that matches the text [s] itself. *)
Fixpoint chars (s : string) : list Term :=
  match s with
  | EmptyString => []
  | String c r => TChar c :: chars r
  end.

(** A base path in the interpreted fragment that has no alternation. *)
Fixpoint singleAlternative (s : string) : bool :=
  match s with
  | EmptyString => true
  | String c r =>
      negb (outsideFragment c || Ascii.eqb c "|") && singleAlternative r
  end.

(** A base path whose pattern lies in the interpreted fragment. *)
Fixpoint inFragment (s : string) : bool :=
  match s with
  | EmptyString => true
  | String c r => negb (outsideFragment c) && inFragment r
  end.

(** The base path an instance is configured with. *)
Definition configuredBasePath (options : option HttpFunctionAdapterOptions)
  : string :=
  getDefaultIfUndefined (options ≫= stripBasePath) "".

Definition withBasePath (s : string) : option HttpFunctionAdapterOptions :=
  Some {| stripBasePath := Some s |}.

(** The request returned and the heap left by a run. *)
Definition returned {S A} (r : Outcome A * S) : Outcome A := fst r.
Definition storeAfter {S A} (r : Outcome A * S) : S := snd r.

(** The bytes that the body of an event stands for. *)
Definition decodedBody (event : DigitalOceanHttpEvent) : Buffer :=
  if default false (__ow_isBase64Encoded event)
  then base64Decode (default "" (__ow_body event))
  else utf8Encode (default "" (__ow_body event)).

(** ** Sample inputs *)

(** A [GET] event for a path, its header object at location 0, without
    query, body or base64 flag. *)
Definition eventAt (p : string) : DigitalOceanHttpEvent :=
  {| __ow_method := "GET";
     __ow_path := p;
     __ow_headers := 0%nat;
     __ow_query := None;
     __ow_body := None;
     __ow_isBase64Encoded := None |}.

(** A [POST] event carrying a text or base64 body. *)
Definition eventWithBody (b : string) (isBase64 : option bool)
  : DigitalOceanHttpEvent :=
  {| __ow_method := "POST";
     __ow_path := "/upload";
     __ow_headers := 0%nat;
     __ow_query := None;
     __ow_body := Some b;
     __ow_isBase64Encoded := isBase64 |}.

(** A heap whose object at location 0 has a single header. *)
Definition sampleHeap : Heap :=
  {[ 0%nat := {[ "x-forwarded-for" := "203.0.113.7" ]} ]}.

Definition sampleError (st : option string) : Error :=
  {| name := "Error"; message := "boom"; stack := st |}.

Definition sampleOnErrorProps (st : option string) (verbose : bool)
  : OnErrorProps :=
  {| error := sampleError st;
     respondWithErrors := verbose;
     onError_event := eventAt "/";
     onError_log := tt |}.

(** A value that [canHandle] accepts and that is no event of the
    declared type: [{__ow_path: null, __ow_method: 0, __ow_headers: ''}]. *)
Definition illTypedEvent : JsValue :=
  JsObject [("__ow_path", JsNull); ("__ow_method", JsNumber 0);
            ("__ow_headers", JsString "")].

(** A canonical response with status 200 and a text body. *)
Definition sampleResponseProps (hs : gmap string StringOrArray)
  : GetResponseAdapterProps :=
  {| props_event := eventAt "/";
     props_statusCode := 200;
     props_body := BodyString "ok";
     props_headers := hs;
     props_isBase64Encoded := false;
     props_log := tt |}.

(** An instance of a subclass that overrides [getResponse] with a method
    that throws. *)
Definition throwingResponseAdapter : HttpFunctionAdapter :=
  {| options := None;
     this_getPathFromEvent := getPathFromEvent None;
     this_getResponse := fun _ => Throw (ThrownError "no response") |}.

(** ** Lemmas on the builtins *)

Section RegExpLemmas.

Lemma literalChar_spec c :
  literalChar c = true ->
  outsideFragment c = false /\ Ascii.eqb c "|" = false /\ termOf c = TChar c.
Proof.
  unfold literalChar, termOf. rewrite negb_true_iff, !orb_false_iff.
  intros [[[[-> ->] ->] ->] ->]. done.
Qed.

Lemma parsePattern_literal s :
  literal s = true -> parsePattern s = Some (mkRegExp (chars s) []).
Proof.
  induction s as [|c r IH]; simpl; [done|].
  rewrite andb_true_iff. intros [Hc Hr].
  destruct (literalChar_spec c Hc) as (-> & -> & ->).
  by rewrite (IH Hr).
Qed.

Lemma parsePattern_inFragment s :
  inFragment s = true -> exists re, parsePattern s = Some re.
Proof.
  induction s as [|c r IH]; simpl; [by eexists|].
  rewrite andb_true_iff, negb_true_iff. intros [-> Hr].
  destruct (IH Hr) as [[a d] ->].
  destruct (Ascii.eqb c "|"); by eexists.
Qed.

Lemma parsePattern_singleAlternative s :
  singleAlternative s = true -> exists a, parsePattern s = Some (mkRegExp a []).
Proof.
  induction s as [|c r IH]; simpl; [by eexists|].
  rewrite andb_true_iff, negb_true_iff, orb_false_iff. intros [[-> ->] Hr].
  destruct (IH Hr) as [a ->]. by eexists.
Qed.

Lemma RegExp_new_anchored_single s :
  singleAlternative s = true ->
  exists a, RegExp_new ("^" ++ s) = Ok (mkRegExp (TBol :: a) []).
Proof.
  intros Hs. unfold RegExp_new.
  change (parsePattern ("^" ++ s)) with
    (match parsePattern s with
     | Some (mkRegExp a d) => Some (mkRegExp (TBol :: a) d)
     | None => None
     end).
  destruct (parsePattern_singleAlternative s Hs) as [a ->]. by eexists.
Qed.

(** What an alternative leaves is what follows the matched prefix. *)
Lemma matchAlternative_suffix a pos p rest :
  matchAlternative a pos p = Some rest -> exists matched, p = matched ++ rest.
Proof.
  revert pos p. induction a as [|t a IH]; intros pos p; simpl.
  - intros [= ->]. by exists "".
  - destruct t.
    + destruct p as [|c' p']; [done|]. destruct (Ascii.eqb c' c); [|done].
      intros H. destruct (IH _ _ H) as [m ->]. by exists (String c' m).
    + destruct p as [|c' p']; [done|]. destruct (lineTerminator c'); [done|].
      intros H. destruct (IH _ _ H) as [m ->]. by exists (String c' m).
    + destruct (Nat.eqb pos 0); [|done]. apply IH.
    + destruct p as [|c' p']; [|done]. apply IH.
Qed.

Lemma RegExp_new_anchored_literal s :
  literal s = true ->
  RegExp_new ("^" ++ s) = Ok (mkRegExp (TBol :: chars s) []).
Proof.
  intros Hs. unfold RegExp_new.
  change (parsePattern ("^" ++ s)) with
    (match parsePattern s with
     | Some (mkRegExp a d) => Some (mkRegExp (TBol :: a) d)
     | None => None
     end).
  by rewrite (parsePattern_literal s Hs).
Qed.

Lemma RegExp_new_inFragment s :
  inFragment s = true -> exists re, RegExp_new ("^" ++ s) = Ok re.
Proof.
  intros Hs. unfold RegExp_new.
  destruct (parsePattern_inFragment ("^" ++ s)) as [re ->]; [done|by eexists].
Qed.

Lemma matchAlternative_chars_prefix s pos rest :
  matchAlternative (chars s) pos (s ++ rest) = Some rest.
Proof.
  revert pos. induction s as [|c r IH]; intros pos; simpl; [done|].
  by rewrite Ascii.eqb_refl.
Qed.

Lemma matchAlternative_chars_inv s pos p rest :
  matchAlternative (chars s) pos p = Some rest -> p = s ++ rest.
Proof.
  revert pos p. induction s as [|c r IH]; intros pos p; simpl.
  - by intros [= ->].
  - destruct p as [|c' p']; [done|].
    destruct (Ascii.eqb c' c) eqn:E; [|done].
    apply Ascii.eqb_eq in E as ->. intros H. by rewrite (IH _ _ H).
Qed.

(** A pattern that is a single alternative starting with [^] matches
    at index 0 or nowhere. *)
Lemma removeFirstMatch_anchored_later a pos rest :
  removeFirstMatch (mkRegExp (TBol :: a) []) (S pos) rest = rest.
Proof.
  revert pos. induction rest as [|c r IH]; intros pos; simpl; [done|].
  by rewrite IH.
Qed.

Lemma matchAt_anchored_start a p :
  matchAt (mkRegExp (TBol :: a) []) 0 p = matchAlternative a 0 p.
Proof.
  unfold matchAt. cbn [firstAlternative otherAlternatives matchDisjunction].
  change (matchAlternative (TBol :: a) 0 p) with (matchAlternative a 0 p).
  by destruct (matchAlternative a 0 p).
Qed.

Lemma String_replace_anchored a p :
  String_replace p (mkRegExp (TBol :: a) []) =
  default p (matchAlternative a 0 p).
Proof.
  unfold String_replace.
  destruct p as [|c r]; cbn [removeFirstMatch]; rewrite matchAt_anchored_start.
  - by destruct (matchAlternative a 0 "").
  - destruct (matchAlternative a 0 (String c r)); simpl; [done|].
    by rewrite removeFirstMatch_anchored_later.
Qed.

Lemma String_replace_anchored_suffix a p :
  exists matched,
    p = matched ++ String_replace p (mkRegExp (TBol :: a) []).
Proof.
  rewrite String_replace_anchored.
  destruct (matchAlternative a 0 p) as [rest|] eqn:E; simpl.
  - by apply matchAlternative_suffix in E.
  - by exists "".
Qed.

Lemma String_replace_literal_prefix s rest :
  String_replace (s ++ rest) (mkRegExp (TBol :: chars s) []) = rest.
Proof.
  by rewrite String_replace_anchored, matchAlternative_chars_prefix.
Qed.

Lemma String_replace_literal_other s p :
  (forall rest, p <> s ++ rest) ->
  String_replace p (mkRegExp (TBol :: chars s) []) = p.
Proof.
  intros Hp. rewrite String_replace_anchored.
  destruct (matchAlternative (chars s) 0 p) as [rest|] eqn:E; [|done].
  apply matchAlternative_chars_inv in E. by destruct (Hp rest).
Qed.

End RegExpLemmas.

(** ** Lemmas on the methods *)

Section MethodLemmas.

Lemma getPathWithQueryStringParams_empty p :
  getPathWithQueryStringParams p [] = p.
Proof. done. Qed.

Lemma getPathWithQueryStringParams_nonempty p q :
  p <> "" -> getPathWithQueryStringParams p q <> "".
Proof.
  intros Hp. unfold getPathWithQueryStringParams.
  destruct (queryPairs q); [done|].
  destruct p; [done|]. discriminate.
Qed.

Lemma getPathFromEvent_literal options event :
  literal (configuredBasePath options) = true ->
  getPathFromEvent options event =
  Ok (getPathWithQueryStringParams
        (String_replace (__ow_path event)
           (mkRegExp (TBol :: chars (configuredBasePath options)) []))
        (default [] (__ow_query event))).
Proof.
  intros Hs. unfold getPathFromEvent.
  change (getDefaultIfUndefined (options ≫= stripBasePath) "")
    with (configuredBasePath options).
  by rewrite (RegExp_new_anchored_literal _ Hs).
Qed.

Lemma getPathFromEvent_inFragment options event :
  inFragment (configuredBasePath options) = true ->
  exists re,
    RegExp_new ("^" ++ configuredBasePath options) = Ok re /\
    getPathFromEvent options event =
    Ok (getPathWithQueryStringParams
          (String_replace (__ow_path event) re)
          (default [] (__ow_query event))).
Proof.
  intros Hs. destruct (RegExp_new_inFragment _ Hs) as [re Hre].
  exists re. split; [done|]. unfold getPathFromEvent.
  change (getDefaultIfUndefined (options ≫= stripBasePath) "")
    with (configuredBasePath options).
  by rewrite Hre.
Qed.

(** The run of [getRequest] once the path is computed. *)
Lemma getRequest_run this event h p :
  this_getPathFromEvent this event = Ok p ->
  getRequest this event h =
  if truthyString (__ow_body event) then
    let h' :=
      <[__ow_headers event :=
          <["content-length" := String_ofNat (List.length (decodedBody event))]>
            (objectAt h (__ow_headers event))]> h in
    (Ok {| method := __ow_method event;
           headers := __ow_headers event;
           body := Some (decodedBody event);
           remoteAddress :=
             objectAt h' (__ow_headers event) !! "x-forwarded-for";
           path := p |}, h')
  else
    (Ok {| method := __ow_method event;
           headers := __ow_headers event;
           body := None;
           remoteAddress :=
             objectAt h (__ow_headers event) !! "x-forwarded-for";
           path := p |}, h).
Proof.
  intros Hp. unfold getRequest, mbind, Run_bind, lift. rewrite Hp.
  by destruct (truthyString (__ow_body event)).
Qed.

(** A run that does not compute a path stops before any write. *)
Lemma getRequest_no_path this event h :
  (forall p, this_getPathFromEvent this event <> Ok p) ->
  storeAfter (getRequest this event h) = h.
Proof.
  intros Hp. unfold getRequest, mbind, Run_bind, lift.
  destruct (this_getPathFromEvent this event) as [p| |]; [|done..].
  by destruct (Hp p).
Qed.

Lemma getRequest_path this event h p :
  this_getPathFromEvent this event = Ok p ->
  path <$> returned (getRequest this event h) = Ok p.
Proof.
  intros Hp. rewrite (getRequest_run _ _ _ _ Hp).
  by destruct (truthyString (__ow_body event)).
Qed.

Lemma onErrorWhileForwarding_run options props calls :
  onErrorWhileForwarding (new_HttpFunctionAdapter options) props calls =
  (Ok tt,
   (calls ++
    [{| statusCode := 500;
        responseBody :=
          BodyString
            (orEmpty (if respondWithErrors props then stack (error props)
                      else Some ""));
        responseHeaders := ∅ |}])%list).
Proof.
  unfold onErrorWhileForwarding, mbind, Run_bind, lift, succeed, modify_store.
  cbn [new_HttpFunctionAdapter this_getResponse]. unfold getResponse.
  cbn [props_headers props_statusCode props_body].
  unfold getFlattenedHeadersMap. by rewrite fmap_empty.
Qed.

Lemma getRequest_throws_path this event (h : Heap) e :
  this_getPathFromEvent this event = Throw e ->
  getRequest this event h = (Throw e, h).
Proof.
  intros He. unfold getRequest, mbind, Run_bind, lift. by rewrite He.
Qed.

End MethodLemmas.

(** ** The specification's statements *)

(** C4. [canHandle] returns on every value, whatever its shape: it
    returns [true] exactly when the value is truthy and its fields
    [__ow_path], [__ow_method] and [__ow_headers] are all defined, and
    [false] on every other value; it never throws. *)
Theorem canHandle_never_throws_and_recognises_markers (event : JsValue) :
  canHandle event =
  Ok (ToBoolean event
      && isDefined (field event "__ow_path")
      && isDefined (field event "__ow_method")
      && isDefined (field event "__ow_headers")).
Proof.
  destruct event as [| |b|n| |s|items aprops|props]; try done.
  - by destruct b.
  - unfold canHandle. cbn. by destruct (n =? 0).
  - unfold canHandle. cbn. by destruct (String.eqb s "").
  - unfold canHandle, Get, field.
    cbn [ToBoolean andThen mbind Outcome_bind andb].
    destruct (isDefined (arrayProperty items aprops "__ow_path")); [|done].
    cbn [andThen andb].
    by destruct (isDefined (arrayProperty items aprops "__ow_method")).
  - unfold canHandle. cbn.
    destruct (isDefined (default JsUndefined (assoc "__ow_path" props))); [|done].
    cbn.
    by destruct (isDefined (default JsUndefined (assoc "__ow_method" props))).
Qed.

(** C6, at the failing input. The claim wants the configured base path
    removed at position 0 only, never mid-string. The code uses the base
    path as the source of a pattern without escaping it: in ["/a|/b"]
    only the first alternative is anchored, and with it [getRequest]
    removes ["/b"] from the middle of ["/x/b/y"], a path that does not
    start with the base path. *)
Lemma getRequest_strips_alternative_mid_string :
  path <$> returned
    (getRequest (new_HttpFunctionAdapter (withBasePath "/a|/b"))
       (eventAt "/x/b/y") sampleHeap) = Ok "/x/y"
  /\ (forall rest, "/x/b/y" <> "/a|/b" ++ rest)
  /\ "/x/y" <> "/x/b/y".
Proof.
  split; [by vm_compute|]. split; [|done].
  intros rest. discriminate.
Qed.

(** X12. For a base path written with plain characters, [.], [^] and
    [$] only (the interpreted pattern syntax without alternation),
    stripping in [getRequest] is anchored: what is removed from the
    event path is a prefix of it, matched at position 0, never a part
    further on. For a base path [s] of plain characters only, a path
    [s ++ rest] becomes [rest] and a path that does not start with [s]
    is kept. ["/api"] turns ["/api/users"] into ["/users"] and keeps
    ["/other/api/x"]. The default base path is the empty string, with
    which the path is kept. *)
Theorem getRequest_strips_base_path_at_start_only
  (s : string) (event : DigitalOceanHttpEvent) (h : Heap) :
  let query := default [] (__ow_query event) in
  (singleAlternative s = true ->
     exists matched rest,
       __ow_path event = matched ++ rest
       /\ path <$> returned
            (getRequest (new_HttpFunctionAdapter (withBasePath s)) event h)
          = Ok (getPathWithQueryStringParams rest query))
  /\ (literal s = true ->
      (forall rest, __ow_path event = s ++ rest ->
         path <$> returned
           (getRequest (new_HttpFunctionAdapter (withBasePath s)) event h)
         = Ok (getPathWithQueryStringParams rest query))
      /\ ((forall rest, __ow_path event <> s ++ rest) ->
          path <$> returned
            (getRequest (new_HttpFunctionAdapter (withBasePath s)) event h)
          = Ok (getPathWithQueryStringParams (__ow_path event) query)))
  /\ path <$> returned
       (getRequest (new_HttpFunctionAdapter (withBasePath "/api"))
          (eventAt "/api/users") h) = Ok "/users"
  /\ path <$> returned
       (getRequest (new_HttpFunctionAdapter (withBasePath "/api"))
          (eventAt "/other/api/x") h) = Ok "/other/api/x"
  /\ configuredBasePath None = ""
  /\ configuredBasePath (Some {| stripBasePath := None |}) = ""
  /\ (forall options, configuredBasePath options = "" ->
      path <$> returned (getRequest (new_HttpFunctionAdapter options) event h)
      = Ok (getPathWithQueryStringParams (__ow_path event) query)).
Proof.
  intros query.
  assert (Hrun : forall options e,
    literal (configuredBasePath options) = true ->
    path <$> returned (getRequest (new_HttpFunctionAdapter options) e h) =
    Ok (getPathWithQueryStringParams
          (String_replace (__ow_path e)
             (mkRegExp (TBol :: chars (configuredBasePath options)) []))
          (default [] (__ow_query e)))).
  { intros options e Hlit. apply getRequest_path.
    cbn [new_HttpFunctionAdapter this_getPathFromEvent].
    by apply getPathFromEvent_literal. }
  split_and!.
  - intros Hs. destruct (RegExp_new_anchored_single s Hs) as [a Ha].
    destruct (String_replace_anchored_suffix a (__ow_path event))
      as [matched Hm].
    exists matched, (String_replace (__ow_path event) (mkRegExp (TBol :: a) [])).
    split; [done|]. apply getRequest_path.
    cbn [new_HttpFunctionAdapter this_getPathFromEvent].
    unfold getPathFromEvent.
    change (getDefaultIfUndefined (withBasePath s ≫= stripBasePath) "") with s.
    by rewrite Ha.
  - intros Hs. split.
    + intros rest Hp. rewrite (Hrun (withBasePath s) event Hs).
      simpl configuredBasePath.
      by rewrite Hp, String_replace_literal_prefix.
    + intros Hp. rewrite (Hrun (withBasePath s) event Hs).
      simpl configuredBasePath. by rewrite String_replace_literal_other.
  - by rewrite (Hrun (withBasePath "/api") (eventAt "/api/users") eq_refl).
  - by rewrite (Hrun (withBasePath "/api") (eventAt "/other/api/x") eq_refl).
  - done.
  - done.
  - intros options Ho. rewrite (Hrun options event); rewrite Ho; [|done].
    by rewrite String_replace_anchored.
Qed.

Lemma getRequest_strips_base_path_at_start_only_witness :
  literal "/api" = true
  /\ path <$> returned
       (getRequest (new_HttpFunctionAdapter (withBasePath "/api"))
          (eventAt "/api/users?") sampleHeap) = Ok "/users?".
Proof.
  split; [reflexivity|].
  apply (proj1 (proj1 (proj2 (getRequest_strips_base_path_at_start_only
                                "/api" (eventAt "/api/users?") sampleHeap))
                  eq_refl)
           "/users?").
  reflexivity.
Defined.

(** C1, counterexample. An event with a body has [content-length]
    written into its own header object: the event is not the same after
    the call. *)
Lemma getRequest_writes_into_event_headers :
  let event := eventWithBody "hi" None in
  let h' := storeAfter
              (getRequest (new_HttpFunctionAdapter None) event sampleHeap) in
  objectAt sampleHeap (__ow_headers event) !! "content-length" = None
  /\ objectAt h' (__ow_headers event) !! "content-length" = Some "2"
  /\ valueOfEvent h' event <> valueOfEvent sampleHeap event.
Proof.
  split; [by vm_compute|]. split; [by vm_compute|].
  vm_compute. discriminate.
Qed.

(** C1, amended. [getRequest] performs no effect but one write into
    the event's own header object. For an event without a body (absent
    or empty) the heap, and so the event, is left as it was. For every
    event, every object other than the event's header object, and every
    header other than [content-length] in that object, is left as it
    was. Whenever [getRequest] returns, the request holds the event's
    header object itself, and for an event with a body that object is
    the one of before with [content-length] set to the number of the
    decoded bytes. *)
Theorem getRequest_changes_only_content_length
  (this : HttpFunctionAdapter) (event : DigitalOceanHttpEvent) (h : Heap) :
  let h' := storeAfter (getRequest this event h) in
  (truthyString (__ow_body event) = false ->
     h' = h /\ valueOfEvent h' event = valueOfEvent h event)
  /\ (forall l, l <> __ow_headers event -> objectAt h' l = objectAt h l)
  /\ (forall k, k <> "content-length" ->
        objectAt h' (__ow_headers event) !! k =
        objectAt h (__ow_headers event) !! k)
  /\ (forall request,
        returned (getRequest this event h) = Ok request ->
        headers request = __ow_headers event
        /\ (truthyString (__ow_body event) = true ->
            objectAt h' (__ow_headers event) =
            <["content-length" :=
                String_ofNat (List.length (decodedBody event))]>
              (objectAt h (__ow_headers event))
            /\ objectAt h' (headers request) !! "content-length" =
               Some (String_ofNat (List.length (decodedBody event))))).
Proof.
  intros h'. subst h'.
  destruct (this_getPathFromEvent this event) as [p| |] eqn:Hp.
  - rewrite (getRequest_run _ _ h _ Hp).
    destruct (truthyString (__ow_body event)); cbn [storeAfter returned fst snd].
    + split_and!; [done| | |].
      * intros l Hl. unfold objectAt. by rewrite lookup_total_insert_ne.
      * intros k Hk. unfold objectAt.
        by rewrite lookup_total_insert_eq, lookup_insert_ne.
      * intros request [= <-]. cbn [headers]. split; [done|]. intros _.
        unfold objectAt. rewrite lookup_total_insert_eq.
        by rewrite lookup_insert_eq.
    + split_and!; [done..|]. by intros request [= <-].
  - rewrite getRequest_no_path by (intros p; by rewrite Hp).
    split_and!; [done..|].
    unfold getRequest, mbind, Run_bind, lift. by rewrite Hp.
  - rewrite getRequest_no_path by (intros p; by rewrite Hp).
    split_and!; [done..|].
    unfold getRequest, mbind, Run_bind, lift. by rewrite Hp.
Qed.

Lemma getRequest_changes_only_content_length_witness :
  exists request,
    returned
      (getRequest (new_HttpFunctionAdapter None)
         (eventWithBody "aGVsbG8=" (Some true)) sampleHeap) = Ok request
    /\ truthyString (__ow_body (eventWithBody "aGVsbG8=" (Some true))) = true
    /\ headers request = 0%nat
    /\ objectAt
         (storeAfter
            (getRequest (new_HttpFunctionAdapter None)
               (eventWithBody "aGVsbG8=" (Some true)) sampleHeap)) 0%nat
       = <["content-length" := "5"]> (objectAt sampleHeap 0%nat).
Proof.
  eexists. split; [reflexivity|]. split; [reflexivity|].
  destruct (proj2 (proj2 (proj2
              (getRequest_changes_only_content_length
                 (new_HttpFunctionAdapter None)
                 (eventWithBody "aGVsbG8=" (Some true)) sampleHeap)))
              _ eq_refl) as [Hh Hw].
  split; [exact Hh|]. exact (proj1 (Hw eq_refl)).
Defined.

(** C5, counterexample. [canHandle] accepts the value
    [{__ow_path: null, __ow_method: 0, __ow_headers: ''}], and on it
    [getRequest] throws a [TypeError] when it calls [replace] on the
    path. An event whose path is the empty string is recognised, and
    [getRequest] returns a request whose path is empty. With the base
    path ["("], whose pattern is not well formed, [getRequest] throws a
    [SyntaxError] on a recognised event. *)
Lemma getRequest_returns_empty_path_or_throws :
  canHandle illTypedEvent = Ok true
  /\ (exists msg, getRequestOfValue None illTypedEvent = Throw (TypeError msg))
  /\ canHandle (valueOfEvent sampleHeap (eventAt "")) = Ok true
  /\ path <$> returned
       (getRequest (new_HttpFunctionAdapter None) (eventAt "") sampleHeap)
     = Ok ""
  /\ canHandle (valueOfEvent sampleHeap (eventAt "/users")) = Ok true
  /\ (exists msg,
        returned
          (getRequest (new_HttpFunctionAdapter (withBasePath "("))
             (eventAt "/users") sampleHeap)
        = Throw (SyntaxError msg)).
Proof.
  split_and!; try by vm_compute.
  - eexists. by vm_compute.
  - eexists. by vm_compute.
Qed.

(** C5, amended. Every event of the declared type is recognised by
    [canHandle], and for every configuration whose base path makes
    [new RegExp] return a pattern, whatever the regular-expression
    engine, [getRequest] does not throw: it returns a request with the
    event's method, the event's header map and the path made of the
    stripped event path and the query. The path is not empty whenever
    the stripped event path is not empty. *)
Theorem getRequest_returns_on_recognised_event
  (E : RegExpEngine) (options : option HttpFunctionAdapterOptions)
  (event : DigitalOceanHttpEvent) (h : Heap) (re : Pattern E) :
  construct E ("^" ++ configuredBasePath options) = Ok re ->
  canHandle (valueOfEvent h event) = Ok true
  /\ exists request h',
       getRequest (new_HttpFunctionAdapterWith E options) event h
       = (Ok request, h')
       /\ method request = __ow_method event
       /\ headers request = __ow_headers event
       /\ path request =
          getPathWithQueryStringParams
            (replaceFirst E (__ow_path event) re)
            (default [] (__ow_query event))
       /\ (replaceFirst E (__ow_path event) re <> "" -> path request <> "").
Proof.
  intros Hre. split; [done|].
  assert (Hp : this_getPathFromEvent (new_HttpFunctionAdapterWith E options) event
               = Ok (getPathWithQueryStringParams
                       (replaceFirst E (__ow_path event) re)
                       (default [] (__ow_query event)))).
  { cbn [new_HttpFunctionAdapterWith this_getPathFromEvent].
    unfold getPathFromEventWith.
    change (getDefaultIfUndefined (options ≫= stripBasePath) "")
      with (configuredBasePath options).
    by rewrite Hre. }
  rewrite (getRequest_run _ event h _ Hp).
  destruct (truthyString (__ow_body event));
    (do 2 eexists; split_and!; [done..|]);
    apply getPathWithQueryStringParams_nonempty.
Qed.

Lemma getRequest_returns_on_recognised_event_witness :
  RegExp_new ("^" ++ configuredBasePath (withBasePath "/v1|/v2"))
  = Ok (mkRegExp [TBol; TChar "/"; TChar "v"; TChar "1"]
          [[TChar "/"; TChar "v"; TChar "2"]])
  /\ exists request h',
       getRequest (new_HttpFunctionAdapter (withBasePath "/v1|/v2"))
         (eventAt "/v1/items") sampleHeap = (Ok request, h')
       /\ method request = "GET"
       /\ path request <> "".
Proof.
  split; [reflexivity|].
  destruct (getRequest_returns_on_recognised_event
              interpretedEngine (withBasePath "/v1|/v2")
              (eventAt "/v1/items") sampleHeap
              (mkRegExp [TBol; TChar "/"; TChar "v"; TChar "1"]
                 [[TChar "/"; TChar "v"; TChar "2"]])
              eq_refl)
    as (_ & request & h' & Hrun & Hm & _ & _ & Hne).
  exists request, h'. split; [exact Hrun|]. split; [exact Hm|].
  apply Hne. discriminate.
Defined.



(** The length written is the one of the decoded bytes: 5 for a base64
    text of 8 characters, 2 for a text of one character above 127. *)
Example getRequest_content_length_of_base64_body :
  objectAt
    (storeAfter
       (getRequest (new_HttpFunctionAdapter None)
          (eventWithBody "aGVsbG8=" (Some true)) sampleHeap)) 0%nat
    !! "content-length" = Some "5"
  /\ String.length "aGVsbG8=" = 8%nat.
Proof. split; by vm_compute. Qed.

Example getRequest_content_length_of_utf8_body :
  objectAt
    (storeAfter
       (getRequest (new_HttpFunctionAdapter None)
          (eventWithBody (String (ascii_of_N 233) "") None) sampleHeap)) 0%nat
    !! "content-length" = Some "2"
  /\ String.length (String (ascii_of_N 233) "") = 1%nat.
Proof. split; by vm_compute. Qed.

(** C8. [getResponse] returns the status code and the body it is given,
    and the flattened headers: the same header names, a header with
    several values joined with commas in their order, a header with a
    single value as it is. [{"set-cookie": ["a=1","b=2"]}] becomes
    [{"set-cookie": "a=1,b=2"}]. *)
Theorem getResponse_keeps_status_and_body_and_flattens_headers
  (props : GetResponseAdapterProps) :
  statusCode (getResponse props) = props_statusCode props
  /\ responseBody (getResponse props) = props_body props
  /\ (forall k, responseHeaders (getResponse props) !! k = None <->
                props_headers props !! k = None)
  /\ (forall k s, props_headers props !! k = Some (One s) ->
        responseHeaders (getResponse props) !! k = Some s)
  /\ (forall k l, props_headers props !! k = Some (Many l) ->
        responseHeaders (getResponse props) !! k = Some (String.concat "," l))
  /\ responseHeaders
       (getResponse
          (sampleResponseProps {[ "set-cookie" := Many ["a=1"; "b=2"] ]}))
     = {[ "set-cookie" := "a=1,b=2" ]}.
Proof.
  unfold getResponse, getFlattenedHeadersMap.
  cbn [statusCode responseBody responseHeaders].
  split_and!; [done|done| | | |].
  - intros k. rewrite lookup_fmap. by destruct (props_headers props !! k).
  - intros k s Hk. by rewrite lookup_fmap, Hk.
  - intros k l Hk. by rewrite lookup_fmap, Hk.
  - cbn [sampleResponseProps props_headers]. by rewrite map_fmap_singleton.
Qed.

Lemma getResponse_keeps_status_and_body_and_flattens_headers_witness :
  ({[ "accept" := Many ["text/html"; "text/plain"] ]}
     : gmap string StringOrArray) !! "accept"
  = Some (Many ["text/html"; "text/plain"])
  /\ responseHeaders
       (getResponse
          (sampleResponseProps {[ "accept" := Many ["text/html"; "text/plain"] ]}))
     !! "accept" = Some "text/html,text/plain".
Proof.
  split; [reflexivity|].
  apply (proj1 (proj2 (proj2 (proj2 (proj2
           (getResponse_keeps_status_and_body_and_flattens_headers
              (sampleResponseProps
                 {[ "accept" := Many ["text/html"; "text/plain"] ]}))))))
           "accept" ["text/html"; "text/plain"]).
  reflexivity.
Defined.

(** C2, counterexample. The method has no handler: when the response
    construction throws, as in a subclass whose [getResponse] throws,
    the exception leaves [onErrorWhileForwarding] and [succeed] is not
    invoked. *)
Lemma onErrorWhileForwarding_propagates_failed_construction :
  onErrorWhileForwarding throwingResponseAdapter
    (sampleOnErrorProps (Some "Error: boom") true) []
  = (Throw (ThrownError "no response"), []).
Proof. reflexivity. Qed.

(** C2, amended. For every error, flag and event,
    [onErrorWhileForwarding] of the class returns without throwing and
    has invoked [succeed] exactly once: its response construction, made
    for an empty header map, cannot fail. A failure of the response
    construction is not handled: the exception is passed on and
    [succeed] is not invoked; whenever the construction returns,
    [succeed] is invoked once with what it returned. *)
Theorem onErrorWhileForwarding_succeeds_exactly_once
  (options : option HttpFunctionAdapterOptions)
  (props : OnErrorProps) (calls : DelegatedResolver) :
  (exists response,
     onErrorWhileForwarding (new_HttpFunctionAdapter options) props calls
     = (Ok tt, (calls ++ [response])%list))
  /\ (forall this e,
        (forall p, this_getResponse this p = Throw e) ->
        onErrorWhileForwarding this props calls = (Throw e, calls))
  /\ (forall this response,
        (forall p, this_getResponse this p = Ok response) ->
        onErrorWhileForwarding this props calls
        = (Ok tt, (calls ++ [response])%list)).
Proof.
  split_and!.
  - eexists. apply onErrorWhileForwarding_run.
  - intros this e He. unfold onErrorWhileForwarding, mbind, Run_bind, lift.
    by rewrite He.
  - intros this response Hr.
    unfold onErrorWhileForwarding, mbind, Run_bind, lift. by rewrite Hr.
Qed.

Lemma onErrorWhileForwarding_succeeds_exactly_once_witness :
  (forall p, this_getResponse throwingResponseAdapter p
             = Throw (ThrownError "no response"))
  /\ onErrorWhileForwarding throwingResponseAdapter
       (sampleOnErrorProps None false) []
     = (Throw (ThrownError "no response"), []).
Proof.
  split; [reflexivity|].
  apply (proj1 (proj2 (onErrorWhileForwarding_succeeds_exactly_once
                         None (sampleOnErrorProps None false) []))).
  reflexivity.
Defined.

(** C3. With [respondWithErrors] false the exchange is resolved with
    status 500 and the empty string as body, whatever the error; with
    [respondWithErrors] true the body is the stack of the error. *)
Theorem onErrorWhileForwarding_body_follows_flag
  (options : option HttpFunctionAdapterOptions)
  (props : OnErrorProps) (calls : DelegatedResolver) :
  (respondWithErrors props = false ->
     onErrorWhileForwarding (new_HttpFunctionAdapter options) props calls
     = (Ok tt,
        (calls ++ [{| statusCode := 500;
                      responseBody := BodyString "";
                      responseHeaders := ∅ |}])%list))
  /\ (respondWithErrors props = true ->
      forall s, stack (error props) = Some s ->
      onErrorWhileForwarding (new_HttpFunctionAdapter options) props calls
      = (Ok tt,
         (calls ++ [{| statusCode := 500;
                       responseBody := BodyString s;
                       responseHeaders := ∅ |}])%list)).
Proof.
  rewrite onErrorWhileForwarding_run. split.
  - by intros ->.
  - intros -> s ->. unfold orEmpty. cbn [truthyString default].
    destruct (String.eqb_spec s "") as [->|]; done.
Qed.

Lemma onErrorWhileForwarding_body_follows_flag_witness :
  respondWithErrors (sampleOnErrorProps (Some "Error: boom") false) = false
  /\ onErrorWhileForwarding (new_HttpFunctionAdapter None)
       (sampleOnErrorProps (Some "Error: boom") false) []
     = (Ok tt,
        [{| statusCode := 500;
            responseBody := BodyString "";
            responseHeaders := ∅ |}]).
Proof.
  split; [reflexivity|].
  apply (proj1 (onErrorWhileForwarding_body_follows_flag
                  None (sampleOnErrorProps (Some "Error: boom") false) [])).
  reflexivity.
Defined.

(** C9. The body of the response that [onErrorWhileForwarding] resolves
    with is always a string: with [respondWithErrors] true and a stack
    that is undefined or empty it is the empty string. *)
Theorem onErrorWhileForwarding_body_is_a_string
  (options : option HttpFunctionAdapterOptions)
  (props : OnErrorProps) (calls : DelegatedResolver) :
  exists response s,
    onErrorWhileForwarding (new_HttpFunctionAdapter options) props calls
    = (Ok tt, (calls ++ [response])%list)
    /\ responseBody response = BodyString s
    /\ (respondWithErrors props = true ->
        stack (error props) = None \/ stack (error props) = Some "" ->
        s = "").
Proof.
  rewrite onErrorWhileForwarding_run. do 2 eexists. split_and!; [done..|].
  by intros -> [-> | ->].
Qed.

Lemma onErrorWhileForwarding_body_is_a_string_witness :
  exists response,
    onErrorWhileForwarding (new_HttpFunctionAdapter None)
      (sampleOnErrorProps None true) []
    = (Ok tt, [response])
    /\ responseBody response = BodyString "".
Proof.
  destruct (onErrorWhileForwarding_body_is_a_string
              None (sampleOnErrorProps None true) [])
    as (response & s & Hrun & Hbody & Hs).
  exists response. split; [exact Hrun|].
  rewrite Hbody. f_equal. apply Hs; [reflexivity|left; reflexivity].
Defined.

(** C10. The response that [onErrorWhileForwarding] passes to [succeed]
    has status 500 and an empty header map, for every error, event and
    flag. *)
Theorem onErrorWhileForwarding_status_500_and_no_headers
  (options : option HttpFunctionAdapterOptions)
  (props : OnErrorProps) (calls : DelegatedResolver) :
  exists response,
    onErrorWhileForwarding (new_HttpFunctionAdapter options) props calls
    = (Ok tt, (calls ++ [response])%list)
    /\ statusCode response = 500
    /\ responseHeaders response = ∅.
Proof. rewrite onErrorWhileForwarding_run. by eexists. Qed.

(** ** Further properties of the methods *)

Section HeapLemmas.

(** The write of [content-length] does not touch [x-forwarded-for]. *)
Lemma forwarded_for_after_write (h : Heap) (l : loc) (v : string) :
  objectAt (<[l := <["content-length" := v]> (objectAt h l)]> h) l
    !! "x-forwarded-for"
  = objectAt h l !! "x-forwarded-for".
Proof. unfold objectAt. by rewrite lookup_total_insert_eq, lookup_insert_ne. Qed.

Lemma objectAt_after_write_eq (h : Heap) (l : loc) (o : gmap string string) :
  objectAt (<[l := o]> h) l = o.
Proof. unfold objectAt. by rewrite lookup_total_insert_eq. Qed.

Lemma objectAt_after_write_ne (h : Heap) (l l' : loc) (o : gmap string string) :
  l <> l' -> objectAt (<[l := o]> h) l' = objectAt h l'.
Proof. intros Hl. unfold objectAt. by rewrite lookup_total_insert_ne. Qed.

(** The heap that a run of [getRequest] leaves. *)
Lemma getRequest_storeAfter this event (h : Heap) :
  storeAfter (getRequest this event h) =
  match this_getPathFromEvent this event with
  | Ok _ =>
      if truthyString (__ow_body event) then
        <[__ow_headers event :=
            <["content-length" := String_ofNat (List.length (decodedBody event))]>
              (objectAt h (__ow_headers event))]> h
      else h
  | _ => h
  end.
Proof.
  destruct (this_getPathFromEvent this event) as [p| |] eqn:Hp.
  - rewrite (getRequest_run _ _ h _ Hp).
    by destruct (truthyString (__ow_body event)).
  - apply getRequest_no_path. intros p. by rewrite Hp.
  - apply getRequest_no_path. intros p. by rewrite Hp.
Qed.

(** What [getRequest] returns depends on the heap through one header. *)
Lemma getRequest_returned_heaps this event (h1 h2 : Heap) :
  objectAt h1 (__ow_headers event) !! "x-forwarded-for"
  = objectAt h2 (__ow_headers event) !! "x-forwarded-for" ->
  returned (getRequest this event h1) = returned (getRequest this event h2).
Proof.
  intros Hx.
  destruct (this_getPathFromEvent this event) as [p| |] eqn:Hp.
  - rewrite !(getRequest_run _ _ _ _ Hp).
    destruct (truthyString (__ow_body event)); cbn [returned fst].
    + by rewrite !forwarded_for_after_write, Hx.
    + by rewrite Hx.
  - unfold getRequest, mbind, Run_bind, lift. by rewrite Hp.
  - unfold getRequest, mbind, Run_bind, lift. by rewrite Hp.
Qed.

End HeapLemmas.

Section RemovalLemmas.

Lemma matchDisjunction_suffix d pos p rest :
  matchDisjunction d pos p = Some rest -> exists matched, p = matched ++ rest.
Proof.
  induction d as [|a d IH]; simpl; [done|].
  destruct (matchAlternative a pos p) as [r|] eqn:E; [|done].
  intros [= <-]. by apply matchAlternative_suffix in E.
Qed.

(** Removing the first match takes one piece out of the input. *)
Lemma removeFirstMatch_piece re pos p :
  exists before removed after,
    p = before ++ removed ++ after
    /\ removeFirstMatch re pos p = before ++ after.
Proof.
  revert pos. induction p as [|c r IH]; intros pos; cbn [removeFirstMatch].
  - destruct (matchAt re pos "") as [after|] eqn:E.
    + apply matchDisjunction_suffix in E as [m Hm].
      by exists "", m, after.
    + by exists "", "", "".
  - destruct (matchAt re pos (String c r)) as [after|] eqn:E.
    + apply matchDisjunction_suffix in E as [m Hm].
      by exists "", m, after.
    + destruct (IH (S pos)) as (before & removed & after & Hr & Hrm).
      exists (String c before), removed, after. simpl.
      by rewrite Hrm, Hr at 1.
Qed.

End RemovalLemmas.

Section ValueLemmas.


End ValueLemmas.

(** X1. The remote address of the returned request is the
    [x-forwarded-for] header that the event had before the call, and it
    is absent when the event had none: the write of [content-length]
    that precedes the read does not disturb it. *)
Theorem getRequest_remoteAddress_is_forwarded_for
  (this : HttpFunctionAdapter) (event : DigitalOceanHttpEvent) (h : Heap)
  (p : string) :
  this_getPathFromEvent this event = Ok p ->
  remoteAddress <$> returned (getRequest this event h)
  = Ok (objectAt h (__ow_headers event) !! "x-forwarded-for").
Proof.
  intros Hp. rewrite (getRequest_run _ _ h _ Hp).
  destruct (truthyString (__ow_body event)); cbn [returned fst fmap Outcome_fmap];
    cbn [remoteAddress]; [|done].
  by rewrite forwarded_for_after_write.
Qed.

Lemma getRequest_remoteAddress_is_forwarded_for_witness :
  this_getPathFromEvent (new_HttpFunctionAdapter None)
    (eventWithBody "hi" None) = Ok "/upload"
  /\ remoteAddress <$> returned
       (getRequest (new_HttpFunctionAdapter None)
          (eventWithBody "hi" None) sampleHeap)
     = Ok (objectAt sampleHeap 0%nat !! "x-forwarded-for").
Proof.
  split; [reflexivity|].
  apply (getRequest_remoteAddress_is_forwarded_for
           (new_HttpFunctionAdapter None) (eventWithBody "hi" None)
           sampleHeap "/upload").
  reflexivity.
Defined.

(** X2. The path is computed before anything is written: when its
    computation throws, [getRequest] throws the same exception and the
    heap, so the event with its headers, is as before the call, also for
    an event with a body. *)
Theorem getRequest_throws_before_writing
  (this : HttpFunctionAdapter) (event : DigitalOceanHttpEvent) (h : Heap)
  (e : Exn) :
  this_getPathFromEvent this event = Throw e ->
  getRequest this event h = (Throw e, h).
Proof.
  intros He. unfold getRequest, mbind, Run_bind, lift. by rewrite He.
Qed.

Lemma getRequest_throws_before_writing_witness :
  this_getPathFromEvent (new_HttpFunctionAdapter (withBasePath "("))
    (eventWithBody "hi" None)
  = Throw (SyntaxError "Invalid regular expression: /^(/: Unterminated group")
  /\ getRequest (new_HttpFunctionAdapter (withBasePath "("))
       (eventWithBody "hi" None) sampleHeap
     = (Throw (SyntaxError "Invalid regular expression: /^(/: Unterminated group"),
        sampleHeap).
Proof.
  split; [reflexivity|].
  apply (getRequest_throws_before_writing
           (new_HttpFunctionAdapter (withBasePath "(")) (eventWithBody "hi" None)
           sampleHeap).
  reflexivity.
Defined.

(** X3. [getRequest] can be repeated: a second call on the same event,
    in the heap that the first call left, returns the same outcome and
    leaves that heap as it is. *)
Theorem getRequest_twice
  (this : HttpFunctionAdapter) (event : DigitalOceanHttpEvent) (h : Heap) :
  getRequest this event (storeAfter (getRequest this event h))
  = getRequest this event h.
Proof.
  destruct (this_getPathFromEvent this event) as [p| |] eqn:Hp.
  - rewrite !(getRequest_run _ _ _ _ Hp).
    destruct (truthyString (__ow_body event)); cbn [storeAfter snd]; [|done].
    cbv zeta.
    repeat (rewrite objectAt_after_write_eq || rewrite insert_insert_eq).
    done.
  - unfold getRequest, mbind, Run_bind, lift. by rewrite Hp.
  - unfold getRequest, mbind, Run_bind, lift. by rewrite Hp.
Qed.



(** X5. [canHandle] looks at the three marker properties and at nothing
    else: a further property of another name, whatever its value, does
    not change its answer. *)
Theorem canHandle_ignores_other_properties
  (k : string) (v : JsValue) (props : list (string * JsValue)) :
  k <> "__ow_path" -> k <> "__ow_method" -> k <> "__ow_headers" ->
  canHandle (JsObject ((k, v) :: props)) = canHandle (JsObject props).
Proof.
  intros Hp Hm Hh. unfold canHandle, Get. cbn [assoc ToBoolean andThen].
  assert (E : forall key, k <> key -> String.eqb key k = false).
  { intros key Hk. apply String.eqb_neq. congruence. }
  by rewrite (E _ Hp), (E _ Hm), (E _ Hh).
Qed.

Lemma canHandle_ignores_other_properties_witness :
  "__ow_body" <> "__ow_path" /\ "__ow_body" <> "__ow_method"
  /\ "__ow_body" <> "__ow_headers"
  /\ canHandle (JsObject [("__ow_body", JsNumber 7); ("__ow_path", JsNull)])
     = canHandle (JsObject [("__ow_path", JsNull)]).
Proof.
  split_and!; [discriminate..|].
  apply (canHandle_ignores_other_properties
           "__ow_body" (JsNumber 7) [("__ow_path", JsNull)]);
    discriminate.
Defined.

(** X6. The way the path is computed changes the path and nothing else:
    two instances (two configurations, or a subclass with its own
    [getPathFromEvent]) that both compute a path return requests with
    the same method, header map, body and remote address, and leave the
    same heap. *)
Theorem getRequest_path_method_changes_only_path
  (this1 this2 : HttpFunctionAdapter) (event : DigitalOceanHttpEvent)
  (h : Heap) (p1 p2 : string) :
  this_getPathFromEvent this1 event = Ok p1 ->
  this_getPathFromEvent this2 event = Ok p2 ->
  exists request1 request2 h',
    getRequest this1 event h = (Ok request1, h')
    /\ getRequest this2 event h = (Ok request2, h')
    /\ path request1 = p1 /\ path request2 = p2
    /\ method request1 = method request2
    /\ headers request1 = headers request2
    /\ body request1 = body request2
    /\ remoteAddress request1 = remoteAddress request2.
Proof.
  intros H1 H2.
  rewrite (getRequest_run _ _ h _ H1), (getRequest_run _ _ h _ H2).
  destruct (truthyString (__ow_body event)); do 3 eexists; by split_and!.
Qed.

Lemma getRequest_path_method_changes_only_path_witness :
  exists request1 request2 h',
    getRequest (new_HttpFunctionAdapter None)
      (eventWithBody "hi" None) sampleHeap = (Ok request1, h')
    /\ getRequest (new_HttpFunctionAdapter (withBasePath "/up"))
         (eventWithBody "hi" None) sampleHeap = (Ok request2, h')
    /\ path request1 = "/upload" /\ path request2 = "load"
    /\ body request1 = body request2.
Proof.
  destruct (getRequest_path_method_changes_only_path
              (new_HttpFunctionAdapter None)
              (new_HttpFunctionAdapter (withBasePath "/up"))
              (eventWithBody "hi" None) sampleHeap "/upload" "load"
              eq_refl eq_refl)
    as (r1 & r2 & h' & H1 & H2 & Hp1 & Hp2 & _ & _ & Hb & _).
  exists r1, r2, h'. by split_and!.
Defined.

(** X7. For every base path in the interpreted pattern fragment, with
    or without alternation, stripping takes at most one piece out of the
    event path: the path is [before ++ removed ++ after] and the request
    path is made of [before ++ after] and the query. Nothing is added to
    the path and no second occurrence is removed. *)
Theorem getRequest_removes_one_piece_of_path
  (s : string) (event : DigitalOceanHttpEvent) (h : Heap) :
  inFragment s = true ->
  exists before removed after,
    __ow_path event = before ++ removed ++ after
    /\ path <$> returned
         (getRequest (new_HttpFunctionAdapter (withBasePath s)) event h)
       = Ok (getPathWithQueryStringParams (before ++ after)
               (default [] (__ow_query event))).
Proof.
  intros Hs.
  destruct (getPathFromEvent_inFragment (withBasePath s) event Hs)
    as (re & _ & Hp).
  destruct (removeFirstMatch_piece re 0 (__ow_path event))
    as (before & removed & after & Hsplit & Hrm).
  exists before, removed, after. split; [done|].
  rewrite (getRequest_path (new_HttpFunctionAdapter (withBasePath s)) _ h _ Hp).
  unfold String_replace. by rewrite Hrm.
Qed.

Lemma getRequest_removes_one_piece_of_path_witness :
  inFragment "/a|/b" = true
  /\ exists before removed after,
       "/x/b/b" = before ++ removed ++ after
       /\ path <$> returned
            (getRequest (new_HttpFunctionAdapter (withBasePath "/a|/b"))
               (eventAt "/x/b/b") sampleHeap)
          = Ok (getPathWithQueryStringParams (before ++ after) []).
Proof.
  split; [reflexivity|].
  apply (getRequest_removes_one_piece_of_path
           "/a|/b" (eventAt "/x/b/b") sampleHeap).
  reflexivity.
Defined.

(** X8. Requests for events with different header objects do not
    interfere: the request made for the second event is the same whether
    or not the first event was handled before it, and the heap left by
    handling both does not depend on the order. *)
Theorem getRequest_on_separate_events_commute
  (this1 this2 : HttpFunctionAdapter) (event1 event2 : DigitalOceanHttpEvent)
  (h : Heap) :
  __ow_headers event1 <> __ow_headers event2 ->
  returned (getRequest this2 event2 (storeAfter (getRequest this1 event1 h)))
  = returned (getRequest this2 event2 h)
  /\ storeAfter (getRequest this2 event2 (storeAfter (getRequest this1 event1 h)))
     = storeAfter
         (getRequest this1 event1 (storeAfter (getRequest this2 event2 h))).
Proof.
  intros Hl. split.
  - apply getRequest_returned_heaps. rewrite getRequest_storeAfter.
    destruct (this_getPathFromEvent this1 event1); [|done..].
    destruct (truthyString (__ow_body event1)); [|done].
    by rewrite objectAt_after_write_ne.
  - rewrite !getRequest_storeAfter.
    destruct (this_getPathFromEvent this1 event1); [|done..].
    destruct (this_getPathFromEvent this2 event2); [|done..].
    destruct (truthyString (__ow_body event1)); [|done].
    destruct (truthyString (__ow_body event2)); [|done].
    rewrite !objectAt_after_write_ne by done.
    by rewrite insert_insert_ne.
Qed.

Lemma getRequest_on_separate_events_commute_witness :
  __ow_headers (eventWithBody "hi" None) <> 1%nat
  /\ returned
       (getRequest (new_HttpFunctionAdapter None)
          {| __ow_method := "PUT"; __ow_path := "/b"; __ow_headers := 1%nat;
             __ow_query := None; __ow_body := Some "abc";
             __ow_isBase64Encoded := None |}
          (storeAfter
             (getRequest (new_HttpFunctionAdapter None)
                (eventWithBody "hi" None) sampleHeap)))
     = returned
         (getRequest (new_HttpFunctionAdapter None)
            {| __ow_method := "PUT"; __ow_path := "/b"; __ow_headers := 1%nat;
               __ow_query := None; __ow_body := Some "abc";
               __ow_isBase64Encoded := None |}
            sampleHeap).
Proof.
  split; [discriminate|].
  apply (proj1 (getRequest_on_separate_events_commute
                  (new_HttpFunctionAdapter None) (new_HttpFunctionAdapter None)
                  (eventWithBody "hi" None)
                  {| __ow_method := "PUT"; __ow_path := "/b";
                     __ow_headers := 1%nat; __ow_query := None;
                     __ow_body := Some "abc"; __ow_isBase64Encoded := None |}
                  sampleHeap ltac:(discriminate))).
Defined.

(** X9. [getRequest] never removes a header: every header that an
    object holds before the call is still there after it, in the
    event's header object and in every other one. *)
Theorem getRequest_never_removes_a_header
  (this : HttpFunctionAdapter) (event : DigitalOceanHttpEvent) (h : Heap)
  (l : loc) (k : string) :
  is_Some (objectAt h l !! k) ->
  is_Some (objectAt (storeAfter (getRequest this event h)) l !! k).
Proof.
  intros Hk. rewrite getRequest_storeAfter.
  destruct (this_getPathFromEvent this event); [|done..].
  destruct (truthyString (__ow_body event)); [|done].
  destruct (decide (__ow_headers event = l)) as [<-|Hl].
  - rewrite objectAt_after_write_eq.
    destruct (decide ("content-length" = k)) as [<-|Hne].
    + by rewrite lookup_insert_eq.
    + by rewrite lookup_insert_ne.
  - by rewrite objectAt_after_write_ne.
Qed.

Lemma getRequest_never_removes_a_header_witness :
  is_Some (objectAt sampleHeap 0%nat !! "x-forwarded-for")
  /\ is_Some
       (objectAt
          (storeAfter
             (getRequest (new_HttpFunctionAdapter None)
                (eventWithBody "hi" None) sampleHeap)) 0%nat
        !! "x-forwarded-for").
Proof.
  assert (H0 : is_Some (objectAt sampleHeap 0%nat !! "x-forwarded-for")).
  { exists "203.0.113.7". reflexivity. }
  split; [exact H0|].
  apply (getRequest_never_removes_a_header
           (new_HttpFunctionAdapter None) (eventWithBody "hi" None)
           sampleHeap 0%nat "x-forwarded-for" H0).
Defined.

(** X10. Whatever the instance, a subclass with its own [getResponse]
    included, [onErrorWhileForwarding] keeps the completions that the
    resolver already has and adds at most one: exactly one when it
    returns, none when it does not. *)
Theorem onErrorWhileForwarding_adds_at_most_one_completion
  (this : HttpFunctionAdapter) (props : OnErrorProps)
  (calls : DelegatedResolver) :
  exists added,
    storeAfter (onErrorWhileForwarding this props calls)
    = (calls ++ added)%list
    /\ (returned (onErrorWhileForwarding this props calls) = Ok tt ->
        List.length added = 1%nat)
    /\ (returned (onErrorWhileForwarding this props calls) <> Ok tt ->
        added = []).
Proof.
  unfold onErrorWhileForwarding, mbind, Run_bind, lift, succeed, modify_store.
  destruct (this_getResponse this _) as [response|e|].
  - exists [response]. by split_and!.
  - exists []. split_and!; [by rewrite app_nil_r|done..].
  - exists []. split_and!; [by rewrite app_nil_r|done..].
Qed.

Lemma onErrorWhileForwarding_adds_at_most_one_completion_witness :
  exists added,
    storeAfter
      (onErrorWhileForwarding (new_HttpFunctionAdapter None)
         (sampleOnErrorProps (Some "Error: boom") true) [])
    = added
    /\ List.length added = 1%nat.
Proof.
  destruct (onErrorWhileForwarding_adds_at_most_one_completion
              (new_HttpFunctionAdapter None)
              (sampleOnErrorProps (Some "Error: boom") true) [])
    as (added & Hs & Hok & _).
  exists added. split; [exact Hs|]. apply Hok. reflexivity.
Defined.

(** X11. The returned request holds the event's header object itself,
    not a copy: a header that is later set through the request's header
    map is read back through the event's. *)
Theorem getRequest_headers_alias_event_headers
  (this : HttpFunctionAdapter) (event : DigitalOceanHttpEvent) (h : Heap)
  (p k v : string) :
  this_getPathFromEvent this event = Ok p ->
  exists request h',
    getRequest this event h = (Ok request, h')
    /\ objectAt (storeAfter (setProperty (headers request) k v h'))
         (__ow_headers event) !! k = Some v.
Proof.
  intros Hp. rewrite (getRequest_run _ _ h _ Hp).
  destruct (truthyString (__ow_body event)); do 2 eexists; (split; [done|]);
    unfold setProperty, modify_store; cbn [storeAfter snd headers];
    by rewrite objectAt_after_write_eq, lookup_insert_eq.
Qed.

Lemma getRequest_headers_alias_event_headers_witness :
  this_getPathFromEvent (new_HttpFunctionAdapter None) (eventAt "/users")
  = Ok "/users"
  /\ exists request h',
       getRequest (new_HttpFunctionAdapter None) (eventAt "/users") sampleHeap
       = (Ok request, h')
       /\ objectAt (storeAfter (setProperty (headers request) "x-trace" "t1" h'))
            (__ow_headers (eventAt "/users")) !! "x-trace" = Some "t1".
Proof.
  split; [reflexivity|].
  apply (getRequest_headers_alias_event_headers
           (new_HttpFunctionAdapter None) (eventAt "/users") sampleHeap
           "/users" "x-trace" "t1").
  reflexivity.
Defined.

(** ** The run on values and the typed methods *)

Section ValueRunLemmas.

Lemma stringItems_of_strings (l : list string) :
  stringItems (map JsString l) = Some l.
Proof. induction l as [|s l IH]; simpl; [done|]. by rewrite IH. Qed.

Lemma queryEntries_of_query (q : QueryParams) :
  queryEntries (map (fun '(k, v) => (k, valueOfStringOrArray v)) q) = Some q.
Proof.
  induction q as [|[k v] q IH]; simpl; [done|]. rewrite IH.
  destruct v as [s|l]; simpl; [done|]. by rewrite stringItems_of_strings.
Qed.

(** The class over the interpreted engine is the class. *)
Lemma new_HttpFunctionAdapterWith_interpreted options :
  new_HttpFunctionAdapterWith interpretedEngine options
  = new_HttpFunctionAdapter options.
Proof. reflexivity. Qed.

(** On the value of an event of the declared type, the run on values
    computes the path that the typed method computes. *)
Lemma getPathFromValue_of_event options (h : Heap) event :
  getPathFromValue options (valueOfEvent h event)
  = getPathFromEvent options event.
Proof.
  unfold getPathFromValue, getPathFromEvent.
  destruct (RegExp_new _) as [re| |]; [|done..].
  cbn [mbind Outcome_bind].
  change (Get (valueOfEvent h event) "__ow_path")
    with (Ok (JsString (__ow_path event)) : Outcome JsValue).
  cbn [mbind Outcome_bind replaceOn].
  destruct event as [m p l [q|] b f]; cbn [__ow_query __ow_path default].
  - change (Get (valueOfEvent h _) "__ow_query")
      with (Ok (JsObject (map (fun '(k, v) => (k, valueOfStringOrArray v)) q))
            : Outcome JsValue).
    cbn [mbind Outcome_bind]. unfold queryOfValue. cbn [ToBoolean].
    by rewrite queryEntries_of_query.
  - destruct b, f; reflexivity.
Qed.

Lemma assoc_of_list_to_map (l : list (string * string)) k :
  assoc k (map (fun '(k, v) => (k, JsString v)) l)
  = JsString <$> (list_to_map l : gmap string string) !! k.
Proof.
  induction l as [|[k' v] l IH]; simpl; [by rewrite lookup_empty|].
  destruct (String.eqb_spec k k') as [->|Hk].
  - by rewrite lookup_insert_eq.
  - by rewrite lookup_insert_ne.
Qed.

Lemma assoc_of_map_to_list (m : gmap string string) k :
  assoc k (map (fun '(k, v) => (k, JsString v)) (map_to_list m))
  = JsString <$> m !! k.
Proof. by rewrite assoc_of_list_to_map, list_to_map_to_list. Qed.

Lemma assoc_assocSet {A} k k' (x : A) l :
  assoc k' (assocSet k x l) = if String.eqb k' k then Some x else assoc k' l.
Proof.
  induction l as [|[k0 y] l IH]; simpl; [done|].
  destruct (String.eqb_spec k k0) as [->|Hk]; simpl.
  - by destruct (String.eqb k' k0).
  - rewrite IH. destruct (String.eqb_spec k' k0) as [->|Hk0]; [|done].
    by destruct (String.eqb_spec k0 k) as [->|].
Qed.

Lemma Get_headers_value (m : gmap string string) k :
  Get (JsObject (map (fun '(k, v) => (k, JsString v)) (map_to_list m))) k
  = Ok (valueOfOptionalString (m !! k)).
Proof.
  unfold Get. rewrite assoc_of_map_to_list. by destruct (m !! k).
Qed.

(** On the value of an event of the declared type, the run on values
    ends as the typed method does, and what it returns is the value of
    the request returned by the typed method: the same method, path,
    body and remote address, and the same headers. *)
Lemma getRequestOfValue_of_event options (h : Heap) event :
  match getRequest (new_HttpFunctionAdapter options) event h with
  | (Ok request, h') =>
      exists rv,
        getRequestOfValue options (valueOfEvent h event) = Ok rv
        /\ value_method rv = JsString (method request)
        /\ value_path rv = path request
        /\ value_body rv = body request
        /\ value_remoteAddress rv
           = valueOfOptionalString (remoteAddress request)
        /\ forall k,
             Get (value_headers rv) k
             = Ok (valueOfOptionalString (objectAt h' (headers request) !! k))
  | (Throw e, _) => getRequestOfValue options (valueOfEvent h event) = Throw e
  | (Beyond, _) => getRequestOfValue options (valueOfEvent h event) = Beyond
  end.
Proof.
  unfold getRequestOfValue.
  change (Get (valueOfEvent h event) "__ow_headers")
    with (Ok (JsObject (map (fun '(k, v) => (k, JsString v))
                          (map_to_list (objectAt h (__ow_headers event)))))
          : Outcome JsValue).
  change (Get (valueOfEvent h event) "__ow_method")
    with (Ok (JsString (__ow_method event)) : Outcome JsValue).
  cbn [mbind Outcome_bind]. rewrite getPathFromValue_of_event.
  destruct (getPathFromEvent options event) as [p| |] eqn:Hp.
  - rewrite (getRequest_run (new_HttpFunctionAdapter options) event h p Hp).
    cbn [mbind Outcome_bind].
    destruct event as [m ep l q [b|] f]; cbn [__ow_body truthyString].
    + replace (Get (valueOfEvent h _) "__ow_body")
        with (Ok (JsString b) : Outcome JsValue)
        by (by destruct q).
      cbn [mbind Outcome_bind ToBoolean].
      destruct (String.eqb b "") eqn:Eb; cbn [negb].
      * cbn [mbind Outcome_bind fst snd]. rewrite Get_headers_value.
        cbn [mbind Outcome_bind]. eexists. split; [done|].
        cbn [value_method value_path value_body value_remoteAddress
             value_headers method path body remoteAddress headers __ow_headers
             __ow_method].
        split_and!; try done. intros k. apply Get_headers_value.
      * replace (Get (valueOfEvent h _) "__ow_isBase64Encoded")
          with (Ok (valueOfOptionalBool f) : Outcome JsValue)
          by (by destruct q, f).
        cbn [mbind Outcome_bind].
        replace (ToBoolean (valueOfOptionalBool f)) with (default false f)
          by (by destruct f).
        unfold decodedBody. cbn [__ow_body __ow_isBase64Encoded default].
        unfold getEventBodyAsBuffer. cbn [SetProperty mbind Outcome_bind fst snd].
        eexists. split; [reflexivity|].
        cbn [value_method value_path value_body value_remoteAddress
             value_headers method path body remoteAddress headers __ow_headers
             __ow_method].
        assert (Hk : forall k,
          default JsUndefined
            (assoc k
               (assocSet "content-length"
                  (JsString
                     (String_ofNat
                        (List.length
                           (if default false f then base64Decode b
                            else utf8Encode b))))
                  (map (fun '(k, v) => (k, JsString v))
                     (map_to_list (objectAt h l)))))
          = valueOfOptionalString
              (objectAt
                 (<[l := <["content-length" :=
                             String_ofNat
                               (List.length
                                  (if default false f then base64Decode b
                                   else utf8Encode b))]>
                           (objectAt h l)]> h) l !! k)).
        { intros k. rewrite assoc_assocSet, assoc_of_map_to_list.
          rewrite objectAt_after_write_eq.
          destruct (String.eqb_spec k "content-length") as [->|Hne].
          - by rewrite lookup_insert_eq.
          - rewrite lookup_insert_ne by done. by destruct (objectAt h l !! k). }
        split_and!; try done.
        intros k. unfold Get. by rewrite Hk.
    + replace (Get (valueOfEvent h _) "__ow_body")
        with (Ok JsUndefined : Outcome JsValue)
        by (by destruct q, f).
      cbn [mbind Outcome_bind ToBoolean fst snd]. rewrite Get_headers_value.
      cbn [mbind Outcome_bind]. eexists. split; [done|].
      cbn [value_method value_path value_body value_remoteAddress
           value_headers method path body remoteAddress headers __ow_headers
           __ow_method].
      split_and!; try done. intros k. apply Get_headers_value.
  - by rewrite (getRequest_throws_path (new_HttpFunctionAdapter options)
                  event h e Hp).
  - unfold getRequest, mbind, Run_bind, lift.
    cbn [new_HttpFunctionAdapter this_getPathFromEvent]. by rewrite Hp.
Qed.

End ValueRunLemmas.
